(** * RAG flow ([data_gemma/rag.py]): shallow embedding and properties

    The development follows [RAGFlow.query] stage by stage:
    string helpers ([str.split], [str.strip], [in]), question extraction,
    the table-assembly loop over a store of mutable retrieval responses,
    and the whole flow as a program in a small state/exception/trace
    monad whose collaborators (the two LLMs, the data fetcher, the
    validator, the clock, the prompt templates) are parameters. *)

From stdpp Require Import base option list functions strings gmap pretty sorting.
From Stdlib Require Import Ascii ZArith Lia.

Local Open Scope Z_scope.

(** ** Python string operations

    A [string] is read as a sequence of code points below 256. *)
Module PyStr.

(** [str.isspace] on one code point below 256: TAB..CR, FS..US, SPACE,
    NEL (0x85) and NBSP (0xa0). *)
Definition isspace (c : ascii) : bool :=
  let n := N_of_ascii c in
  ((9 <=? n) && (n <=? 13) || (28 <=? n) && (n <=? 32)
   || (n =? 133) || (n =? 160))%N.

Definition newline : ascii := Ascii.ascii_of_nat 10.

(** [s.split('\n')]: never the empty list, [''.split('\n') == ['']]. *)
Fixpoint split_nl (s : string) : list string :=
  match s with
  | EmptyString => [EmptyString]
  | String c s' =>
      if Ascii.eqb c newline then EmptyString :: split_nl s'
      else match split_nl s' with
           | piece :: rest => String c piece :: rest
           | [] => [String c EmptyString]
           end
  end.

Fixpoint lstrip (s : string) : string :=
  match s with
  | EmptyString => EmptyString
  | String c s' => if isspace c then lstrip s' else s
  end.

Fixpoint rstrip (s : string) : string :=
  match s with
  | EmptyString => EmptyString
  | String c s' =>
      match rstrip s' with
      | EmptyString => if isspace c then EmptyString else String c EmptyString
      | r => String c r
      end
  end.

(** [s.strip()] with no argument. *)
Definition strip (s : string) : string := rstrip (lstrip s).

(** Truth value of a [str]: non-empty. *)
Definition truthy (s : string) : bool :=
  match s with EmptyString => false | String _ _ => true end.

(** [sub in s]. *)
Fixpoint contains (sub s : string) : bool :=
  String.prefix sub s ||
  match s with
  | EmptyString => false
  | String _ s' => contains sub s'
  end.

(** Every character is white space (true of the empty string). *)
Fixpoint all_space (s : string) : bool :=
  match s with
  | EmptyString => true
  | String c s' => isspace c && all_space s'
  end.

(** "\n".join(parts) *)
Fixpoint join_nl (parts : list string) : string :=
  match parts with
  | [] => EmptyString
  | [p] => p
  | p :: rest => p +:+ String newline (join_nl rest)
  end.

End PyStr.

(** ** Data model *)

(** [base.LLMCall]: one request/response exchange with a language model. *)
Record LLMCall := { prompt : string; response : string }.

(** Retrieval responses are mutable objects: the mapping returned by the
    fetcher holds references into a store, so that one object reachable
    under two questions is one object. *)
Abbreviation loc := nat.

(** [base.Options(verbose=...)]. *)
Record Options := { verbose : bool }.

Section Model.
Context {Exn Time Payload Ext : Type}.

(** A Python call either returns or raises; what it raises is any
    [BaseException], an instance of [Exception] or not. *)
Inductive Res (A : Type) : Type :=
| Ok (a : A)
| Raise (e : Exn).
Arguments Ok {A} a.
Arguments Raise {A} e.

(** [base.DataCommonsCall] as far as the flow uses it: the mutable [id],
    [title], [table] (a string, present when non-empty) and everything
    else, which only [answer()] reads. *)
Record DataCommonsCall :=
  { id : Z; title : string; table : string; payload : Payload }.

Definition set_id (i : Z) (r : DataCommonsCall) : DataCommonsCall :=
  {| id := i; title := title r; table := table r; payload := payload r |}.

(** The part of the interpreter state the collaborators can reach: the
    store of retrieval responses and their own private state. *)
Record World := { heap : loc -> DataCommonsCall; ext : Ext }.

Definition q2resp_t := list (string * loc).

(** [base.FlowResponse(...)]: a field is [None] when the constructor call
    does not pass that keyword ([llm_calls] is passed at every call). *)
Record FlowResponse := {
  main_text : option string;
  tables_str : option string;
  llm_calls : list LLMCall;
  dc_duration_secs : option Time;
  dc_calls : option (list loc)
}.

(** [base.LLM]: [query(prompt)]. *)
Record LLM := { llm_query : string -> World -> Res LLMCall * World }.

(** [datacommons.DataCommons]: [calln(questions, self.table)]; the table
    selector is the fetcher's own method and is folded into [calln]. *)
Record DataCommons := { calln : list string -> World -> Res q2resp_t * World }.

(** What [query] does that is visible from outside, in program order:
    its calls to [self.options.vlog] and [logging.warning], and its calls
    to the collaborators with their outcomes. *)
Inductive Event : Type :=
| EvVlog (msg : string)
| EvWarning (e : Exn)
| EvQuestionLLM (p : string) (r : Res LLMCall)
| EvAnswerLLM (p : string) (r : Res LLMCall)
| EvCalln (questions : list string) (r : Res q2resp_t)
| EvValidate (r : Res (q2resp_t * list LLMCall)).

(** The names [rag.py] imports from its sibling modules and from the
    standard library. A prompt template is the function that
    [template.format(...)] computes from its keyword arguments;
    [is_Exception e] is [isinstance(e, Exception)], false of
    [KeyboardInterrupt], [SystemExit] and [GeneratorExit]. *)
Record Env := {
  RAG_IN_CONTEXT_PROMPT_WITH_VARS : string -> string -> string;
  RAG_IN_CONTEXT_PROMPT : string -> string;
  RAG_FINE_TUNED_PROMPT : string -> string;
  RAG_FINAL_ANSWER_PROMPT : string -> string -> string;
  run_validation :
    q2resp_t -> LLM -> Options -> list LLMCall ->
    World -> Res (q2resp_t * list LLMCall) * World;
  time_time : World -> Time * World;
  time_sub : Time -> Time -> Time;
  list_of_set : list string -> list string;
  answer : DataCommonsCall -> string;
  is_Exception : Exn -> bool
}.

(** [list(set(xs))] enumerates the distinct members of [xs] once each, in
    an order the language does not fix. *)
Definition set_semantics (env : Env) : Prop :=
  ∀ xs, NoDup (list_of_set env xs) ∧ ∀ x, x ∈ list_of_set env xs ↔ x ∈ xs.

Record RAGFlow := {
  llm_question : LLM;
  llm_answer : LLM;
  data_fetcher : DataCommons;
  options : Options;
  in_context : bool;
  validate_dc_responses : bool;
  metrics_list : string
}.

(** *** The monad: state, exceptions and the trace of events *)

Definition M (A : Type) : Type := World -> Res A * World * list Event.

Definition ret {A} (a : A) : M A := fun w => (Ok a, w, []).

Definition bind {A B} (m : M A) (f : A -> M B) : M B := fun w =>
  match m w with
  | (Ok a, w1, t1) => let '(r, w2, t2) := f a w1 in (r, w2, t1 ++ t2)
  | (Raise e, w1, t1) => (Raise e, w1, t1)
  end.

Definition emit (ev : Event) : M unit := fun w => (Ok tt, w, [ev]).

(** A collaborator call, recorded with its outcome. *)
Definition call {A} (f : World -> Res A * World) (ev : Res A -> Event) : M A :=
  fun w => let '(r, w1) := f w in (r, w1, [ev r]).

(** [try: ... except C as e: ...] around one computation, [catches]
    being the test [isinstance(e, C)]: an exception outside the class
    goes on to the caller. *)
Definition try_except {A} (catches : Exn -> bool) (m : M A) (handler : Exn -> M A)
  : M A := fun w =>
  match m w with
  | (Ok a, w1, t1) => (Ok a, w1, t1)
  | (Raise e, w1, t1) =>
      if catches e then let '(r, w2, t2) := handler e w1 in (r, w2, t1 ++ t2)
      else (Raise e, w1, t1)
  end.

#[local] Instance M_ret : MRet M := @ret.
#[local] Instance M_bind : MBind M := fun A B f m => bind m f.

(** ** The flow *)

Variable env : Env.

Definition _MAX_QUESTIONS : nat := 25.

(** Lines 79-80: the questions handed to the fetcher. *)
Definition stripped_lines (text : string) : list string :=
  omap (fun q => if PyStr.truthy (PyStr.strip q) then Some (PyStr.strip q) else None)
       (PyStr.split_nl text).

Definition extract_questions (text : string) : list string :=
  take _MAX_QUESTIONS (list_of_set env (stripped_lines text)).

(** Lines 57-74: the progress message and the prompt of the first call. *)
Definition question_prompt (self : RAGFlow) (query : string) : string * string :=
  if in_context self then
    if PyStr.truthy (metrics_list self) then
      ("... [RAG] Calling UNTUNED model for DC questions with all DC vars in prompt",
       RAG_IN_CONTEXT_PROMPT_WITH_VARS env (metrics_list self) query)
    else
      ("... [RAG] Calling UNTUNED model for DC questions",
       RAG_IN_CONTEXT_PROMPT env query)
  else
    ("... [RAG] Calling FINETUNED model for DC questions",
     RAG_FINE_TUNED_PROMPT env query).

Definition vlog (self : RAGFlow) (msg : string) : M unit := emit (EvVlog msg).

Definition ask_question (self : RAGFlow) (p : string) : M LLMCall :=
  call (llm_query (llm_question self) p) (EvQuestionLLM p).

Definition ask_answer (self : RAGFlow) (p : string) : M LLMCall :=
  call (llm_query (llm_answer self) p) (EvAnswerLLM p).

Definition now : M Time :=
  fun w => let '(t, w1) := time_time env w in (Ok t, w1, []).

(** Lines 84-89: [except Exception as e]. *)
Definition fetch (self : RAGFlow) (questions : list string) : M q2resp_t :=
  try_except (is_Exception env)
    (call (calln (data_fetcher self) questions) (EvCalln questions))
    (fun e => emit (EvWarning e) ;; mret []).

(** Lines 92-95: the validator receives the call list and may change it. *)
Definition validate (self : RAGFlow) (q2resp : q2resp_t) (calls : list LLMCall)
  : M (q2resp_t * list LLMCall) :=
  if validate_dc_responses self then
    call (run_validation env q2resp (llm_answer self) (options self) calls) EvValidate
  else mret (q2resp, calls).

(** Lines 97-106: the loop state and one iteration. *)
Record Assembly := {
  table_parts : list string;
  table_titles : gset string;
  asm_dc_calls : list loc;
  asm_heap : loc -> DataCommonsCall
}.

Definition table_line (tidx : Z) (resp : DataCommonsCall) : string :=
  "Table " +:+ pretty tidx +:+ ": " +:+ answer env resp.

Definition new_table (st : Assembly) (resp : DataCommonsCall) : bool :=
  PyStr.truthy (table resp) && negb (bool_decide (title resp ∈ table_titles st)).

Definition assemble_step (st : Assembly) (l : loc) : Assembly :=
  let resp := asm_heap st l in
  let tidx := Z.of_nat (length (asm_dc_calls st)) + 1 in
  {| table_parts :=
       if new_table st resp then table_parts st ++ [table_line tidx resp]
       else table_parts st;
     table_titles :=
       if new_table st resp then {[title resp]} ∪ table_titles st
       else table_titles st;
     asm_dc_calls := asm_dc_calls st ++ [l];
     asm_heap := <[l := set_id tidx resp]> (asm_heap st) |}.

Definition assemble_init (h : loc -> DataCommonsCall) : Assembly :=
  {| table_parts := []; table_titles := ∅; asm_dc_calls := []; asm_heap := h |}.

Definition assemble (h : loc -> DataCommonsCall) (values : list loc) : Assembly :=
  foldl assemble_step (assemble_init h) values.

Definition assemble_tables (q2resp : q2resp_t) : M Assembly := fun w =>
  let st := assemble (heap w) (q2resp.*2) in
  (Ok st, {| heap := asm_heap st; ext := ext w |}, []).

(** [RAGFlow.query]. *)
Definition query (self : RAGFlow) (query : string) : M FlowResponse :=
  vlog self (question_prompt self query).1 ;;
  ques_resp ← ask_question self (question_prompt self query).2;
  let llm_calls0 := [ques_resp] in
  if negb (PyStr.truthy (response ques_resp)) then
    mret {| main_text := None; tables_str := None; llm_calls := llm_calls0;
            dc_duration_secs := None; dc_calls := None |}
  else
    let questions := extract_questions (response ques_resp) in
    vlog self "... [RAG] Making DC Calls" ;;
    start ← now;
    q2resp ← fetch self questions;
    stop ← now;
    let dc_duration := time_sub env stop start in
    validated ← validate self q2resp llm_calls0;
    let q2resp := validated.1 in
    let llm_calls1 := validated.2 in
    st ← assemble_tables q2resp;
    prompt_and_tables ←
      (if bool_decide (table_parts st ≠ []) then
         let tables := PyStr.join_nl (table_parts st) in
         mret (RAG_FINAL_ANSWER_PROMPT env query tables, tables)
       else
         vlog self "... [RAG] No stats found!" ;; mret (query, ""));
    let final_prompt := prompt_and_tables.1 in
    let tables := prompt_and_tables.2 in
    vlog self "... [RAG] Calling UNTUNED model for final response" ;;
    ans_resp ← ask_answer self final_prompt;
    let llm_calls2 := llm_calls1 ++ [ans_resp] in
    retried ←
      (if PyStr.contains "[NO ANSWER]" (response ans_resp) then
         vlog self "... [RAG] Retrying original query!" ;;
         ans_resp' ← ask_answer self query;
         mret (ans_resp', llm_calls2 ++ [ans_resp'])
       else mret (ans_resp, llm_calls2));
    let ans_resp := retried.1 in
    let llm_calls3 := retried.2 in
    if negb (PyStr.truthy (response ans_resp)) then
      mret {| main_text := None; tables_str := None; llm_calls := llm_calls3;
              dc_duration_secs := Some dc_duration; dc_calls := None |}
    else
      mret {| main_text := Some (response ans_resp); tables_str := Some tables;
              llm_calls := llm_calls3; dc_duration_secs := Some dc_duration;
              dc_calls := Some (asm_dc_calls st) |}.

End Model.

Arguments Ok {Exn A} a.
Arguments Raise {Exn A} e.

(** The three components of a run. *)
Definition result {Exn Payload Ext A} (o : @Res Exn A * @World Payload Ext * list (@Event Exn))
  : Res A := o.1.1.
Definition final {Exn Payload Ext A} (o : @Res Exn A * @World Payload Ext * list (@Event Exn))
  : World := o.1.2.
Definition events {Exn Payload Ext A} (o : @Res Exn A * @World Payload Ext * list (@Event Exn))
  : list Event := o.2.


(** ** Table assembly as the specification words it

    The table lines are described without the loop: a position
    contributes a line when its response carries a table and no earlier
    response carrying a table has the same title. *)

Section TableSpec.
Context {Exn Time Payload Ext : Type} (env : @Env Exn Time Payload Ext).

Definition has_table (h : loc -> @DataCommonsCall Payload) (l : loc) : bool :=
  PyStr.truthy (table (h l)).

Definition same_title (h : loc -> @DataCommonsCall Payload) (l1 l2 : loc) : bool :=
  bool_decide (title (h l1) = title (h l2)).

Definition first_with_title
  (h : loc -> @DataCommonsCall Payload) (values : list loc) (i : nat) : bool :=
  match values !! i with
  | Some l =>
      has_table h l
      && forallb (fun l' => negb (has_table h l' && same_title h l' l)) (take i values)
  | None => false
  end.

Definition table_positions
  (h : loc -> @DataCommonsCall Payload) (values : list loc) : list nat :=
  filter (fun i => first_with_title h values i = true) (seq 0 (length values)).

(** The line formatted at position [i]: numbered [i + 1], rendered from
    the response as the loop finds it there, that is after the first [i]
    iterations. *)
Definition line_at
  (h : loc -> @DataCommonsCall Payload) (values : list loc) (i : nat) : string :=
  match values !! i with
  | Some l =>
      table_line env (Z.of_nat i + 1) (asm_heap (assemble env h (take i values)) l)
  | None => ""
  end.

(** After the loop every response carries its 1-based position. *)
Definition ids_are_positions
  (h : loc -> @DataCommonsCall Payload) (values : list loc) : Prop :=
  ∀ i l, values !! i = Some l →
         id (asm_heap (assemble env h values) l) = Z.of_nat i + 1.

(** The number printed in each table line is the final identifier of the
    response the line was rendered from. *)
Definition lines_numbered_by_id
  (h : loc -> @DataCommonsCall Payload) (values : list loc) : Prop :=
  ∀ k i, table_positions h values !! k = Some i →
    ∃ l, values !! i = Some l
         ∧ table_parts (assemble env h values) !! k
           = Some (table_line env (id (asm_heap (assemble env h values) l)) (h l)).

End TableSpec.

(** ** Reading a trace *)

Section Trace.
Context {Exn : Type}.

(** The calls [query] made to the answer LLM, oldest first. *)
Definition answer_calls (evs : list (@Event Exn)) : list (string * @Res Exn LLMCall) :=
  omap (fun ev => match ev with EvAnswerLLM p r => Some (p, r) | _ => None end) evs.

Definition question_calls (evs : list (@Event Exn)) : list (string * @Res Exn LLMCall) :=
  omap (fun ev => match ev with EvQuestionLLM p r => Some (p, r) | _ => None end) evs.

Definition fetch_calls (evs : list (@Event Exn))
  : list (list string * @Res Exn (list (string * loc))) :=
  omap (fun ev => match ev with EvCalln qs r => Some (qs, r) | _ => None end) evs.

Definition validate_calls (evs : list (@Event Exn))
  : list (@Res Exn (list (string * loc) * list LLMCall)) :=
  omap (fun ev => match ev with EvValidate r => Some r | _ => None end) evs.

(** The exception a collaborator other than the fetcher raised at this
    event, if any. *)
Definition raised_outside_fetcher (ev : @Event Exn) : option Exn :=
  match ev with
  | EvQuestionLLM _ (Raise e) => Some e
  | EvAnswerLLM _ (Raise e) => Some e
  | EvValidate (Raise e) => Some e
  | _ => None
  end.

(** The mapping the table assembly iterates: what the validator returned
    when it ran, otherwise what the fetcher returned, otherwise nothing. *)
Definition used_mapping (evs : list (@Event Exn)) : list (string * loc) :=
  match validate_calls evs, fetch_calls evs with
  | Ok (m, _) :: _, _ => m
  | [], (_, Ok m) :: _ => m
  | _, _ => []
  end.

(** The records of the calls that returned. *)
Definition returned (calls : list (string * @Res Exn LLMCall)) : list LLMCall :=
  omap (fun pr => match pr.2 with Ok a => Some a | Raise _ => None end) calls.

(** The call list when the answer LLM is first asked: the list the
    validator left when it ran, otherwise the question call alone. *)
Definition calls_before_answer (evs : list (@Event Exn)) : list LLMCall :=
  match validate_calls evs with
  | Ok (_, calls) :: _ => calls
  | _ => returned (question_calls evs)
  end.

(** The accumulated call list at the end of the flow. *)
Definition accumulated_calls (evs : list (@Event Exn)) : list LLMCall :=
  calls_before_answer evs ++ returned (answer_calls evs).

(** A trace with the fetcher's caught failure hidden: the warning is
    dropped and a lookup that raised an exception of the caught class
    reads as a lookup that found nothing. *)
Definition hide_fetch_failure (catches : Exn -> bool) (ev : @Event Exn)
  : list (@Event Exn) :=
  match ev with
  | EvWarning _ => []
  | EvCalln qs (Raise e) => if catches e then [EvCalln qs (Ok [])] else [ev]
  | _ => [ev]
  end.

(** The exception the fetcher raised at this event, if any. *)
Definition raised_by_fetcher (ev : @Event Exn) : option Exn :=
  match ev with
  | EvCalln _ (Raise e) => Some e
  | _ => None
  end.

End Trace.

Section Fetchers.
Context {Exn Payload Ext : Type}.

(** The fetcher that does what [d] does, but returns the empty mapping
    where [d] raises an exception of the caught class. *)
Definition recovering (catches : Exn -> bool) (d : @DataCommons Exn Payload Ext)
  : @DataCommons Exn Payload Ext :=
  {| calln := fun qs w =>
       match calln d qs w with
       | (Raise e, w1) => if catches e then (Ok [], w1) else (Raise e, w1)
       | (Ok m, w1) => (Ok m, w1)
       end |}.

Definition with_fetcher (self : @RAGFlow Exn Payload Ext) (d : @DataCommons Exn Payload Ext)
  : @RAGFlow Exn Payload Ext :=
  {| llm_question := llm_question self;
     llm_answer := llm_answer self;
     data_fetcher := d;
     options := options self;
     in_context := in_context self;
     validate_dc_responses := validate_dc_responses self;
     metrics_list := metrics_list self |}.

End Fetchers.

(** The reading of the flow response under which retrieval results come
    with tables only: a final response without table text has no
    retrieval results. *)
Definition results_only_with_tables {Time} (fr : @FlowResponse Time) : Prop :=
  is_Some (main_text fr) → tables_str fr = Some "" → dc_calls fr = None.

(** The early-exit response of line 77. *)
Definition calls_only {Time} (calls : list LLMCall) : @FlowResponse Time :=
  {| main_text := None; tables_str := None; llm_calls := calls;
     dc_duration_secs := None; dc_calls := None |}.

(** The early-exit response of lines 126-128. *)
Definition calls_and_duration {Time} (calls : list LLMCall) (d : Time) : @FlowResponse Time :=
  {| main_text := None; tables_str := None; llm_calls := calls;
     dc_duration_secs := Some d; dc_calls := None |}.

(** ** A small concrete instance

    Exceptions are strings, the clock counts reads, a retrieval response
    carries its rendered text as payload, and the collaborators' private
    state is the list of answers the answer LLM has yet to give. *)
Module Toy.

Definition world : Type := @World string (list string).
Definition res (A : Type) : Type := @Res string A.

Definition blank : @DataCommonsCall string :=
  {| id := 0; title := ""; table := ""; payload := "" |}.

Definition population : @DataCommonsCall string :=
  {| id := 0; title := "Population"; table := "FR|67"; payload := "67 million" |}.

Definition no_table : @DataCommonsCall string :=
  {| id := 0; title := "Area"; table := ""; payload := "unknown" |}.

(** Object 0 has a table, object 1 has none, every other one is blank. *)
Definition heap0 : loc -> @DataCommonsCall string := fun l =>
  match l with
  | O => population
  | S O => no_table
  | _ => blank
  end.

Definition start (script : list string) : world :=
  {| heap := heap0; ext := script |}.

(** An LLM that always gives the same text. *)
Definition llm_const (text : string) : @LLM string string (list string) :=
  {| llm_query := fun p w => (Ok {| prompt := p; response := text |}, w) |}.

(** An LLM that reads its answers off the script (empty text once the
    script is used up). *)
Definition llm_script : @LLM string string (list string) :=
  {| llm_query := fun p w =>
       match ext w with
       | a :: script =>
           (Ok {| prompt := p; response := a |}, {| heap := heap w; ext := script |})
       | [] => (Ok {| prompt := p; response := "" |}, w)
       end |}.

Definition fetch_const (m : q2resp_t) : @DataCommons string string (list string) :=
  {| calln := fun _ w => (Ok m, w) |}.

Definition fetch_raise (e : string) : @DataCommons string string (list string) :=
  {| calln := fun _ w => (Raise e, w) |}.

(** Exceptions are named by their class. *)
Definition ordinary (e : string) : bool :=
  negb (bool_decide (e ∈ ["KeyboardInterrupt"; "SystemExit"; "GeneratorExit"])).

Definition env : @Env string Z string (list string) :=
  {| RAG_IN_CONTEXT_PROMPT_WITH_VARS := fun metrics sentence =>
       "vars: " +:+ metrics +:+ " q: " +:+ sentence;
     RAG_IN_CONTEXT_PROMPT := fun sentence => "in-context: " +:+ sentence;
     RAG_FINE_TUNED_PROMPT := fun sentence => "tuned: " +:+ sentence;
     RAG_FINAL_ANSWER_PROMPT := fun sentence tables =>
       "tables: " +:+ tables +:+ " q: " +:+ sentence;
     run_validation := fun q2resp _ _ calls w => (Ok (q2resp, calls), w);
     time_time := fun w => (0, w);
     time_sub := Z.sub;
     list_of_set := remove_dups;
     answer := payload;
     is_Exception := ordinary |}.

Definition flow (question_text : string) (fetcher : @DataCommons string string (list string))
  : @RAGFlow string string (list string) :=
  {| llm_question := llm_const question_text;
     llm_answer := llm_script;
     data_fetcher := fetcher;
     options := {| verbose := true |};
     in_context := false;
     validate_dc_responses := false;
     metrics_list := "" |}.

Definition nl : string := String PyStr.newline "".

(** Runs used below. *)
Definition run_france :=
  query env (flow ("What is the population of France?" +:+ nl)
                  (fetch_const [("What is the population of France?", 0%nat)]))
        "What is the population of France?"
        (start ["France has a population of about 67 million."]).

Definition run_no_table :=
  query env (flow "area?" (fetch_const [("area?", 1%nat)])) "How big?" (start ["Big."]).

Definition run_retry :=
  query env (flow "pop?" (fetch_const [("pop?", 0%nat)])) "Population?"
        (start ["[NO ANSWER]"; "About 67 million."]).

Definition run_silent :=
  query env (flow "pop?" (fetch_const [("pop?", 0%nat)])) "Population?" (start [""]).

Definition run_blank :=
  query env (flow ("  " +:+ nl +:+ " ") (fetch_raise "backend down")) "Population?"
        (start ["No idea."]).

Definition run_interrupted :=
  query env (flow "pop?" (fetch_raise "KeyboardInterrupt")) "Population?"
        (start ["No idea."]).

Definition run_nothing_found :=
  query env (flow "pop?" (fetch_const [])) "Population?" (start ["No idea."]).

Definition run_no_question :=
  query env (flow "" (fetch_const [])) "How big?" (start []).

End Toy.

(** ** The constructor and further readings of the code *)

Section Constructor.
Context {Exn Payload Ext : Type}.

(** [RAGFlow.__init__] (lines 31-47): a keyword argument left out is
    [None] and takes the default of the signature. *)
Definition RAGFlow_init
  (llm_question llm_answer : @LLM Exn Payload Ext)
  (data_fetcher : @DataCommons Exn Payload Ext)
  (verbose in_context validate_dc_responses : option bool)
  (metrics_list : option string) : @RAGFlow Exn Payload Ext :=
  {| llm_question := llm_question;
     llm_answer := llm_answer;
     data_fetcher := data_fetcher;
     options := {| verbose := default true verbose |};
     in_context := default false in_context;
     validate_dc_responses := default false validate_dc_responses;
     metrics_list := default "" metrics_list |}.

(** The same flow with another [metrics_list]. *)
Definition with_metrics_list (self : @RAGFlow Exn Payload Ext) (metrics : string)
  : @RAGFlow Exn Payload Ext :=
  {| llm_question := llm_question self;
     llm_answer := llm_answer self;
     data_fetcher := data_fetcher self;
     options := options self;
     in_context := in_context self;
     validate_dc_responses := validate_dc_responses self;
     metrics_list := metrics |}.

End Constructor.

(** Does the character occur in the string? *)
Fixpoint has_char (c : ascii) (s : string) : bool :=
  match s with
  | EmptyString => false
  | String c' s' => Ascii.eqb c' c || has_char c s'
  end.

(** The position of the last occurrence of [l] in [values] is [i]. *)
Definition last_position (values : list loc) (l : loc) (i : nat) : Prop :=
  values !! i = Some l ∧ ∀ j, (i < j)%nat → values !! j ≠ Some l.

Module ToyMore.

(** The clock reads how much of the script has been used. *)
Definition env_clock : @Env string Z string (list string) :=
  {| RAG_IN_CONTEXT_PROMPT_WITH_VARS := RAG_IN_CONTEXT_PROMPT_WITH_VARS Toy.env;
     RAG_IN_CONTEXT_PROMPT := RAG_IN_CONTEXT_PROMPT Toy.env;
     RAG_FINE_TUNED_PROMPT := RAG_FINE_TUNED_PROMPT Toy.env;
     RAG_FINAL_ANSWER_PROMPT := RAG_FINAL_ANSWER_PROMPT Toy.env;
     run_validation := run_validation Toy.env;
     time_time := fun w => (- Z.of_nat (length (ext w)), w);
     time_sub := Z.sub;
     list_of_set := remove_dups;
     answer := payload;
     is_Exception := Toy.ordinary |}.


(** An LLM that is down. *)
Definition llm_down (e : string) : @LLM string string (list string) :=
  {| llm_query := fun _ w => (Raise e, w) |}.

(** A fetcher that uses up one entry of the script. *)
Definition fetch_slow (m : list (string * loc)) : @DataCommons string string (list string) :=
  {| calln := fun _ w => (Ok m, {| heap := heap w; ext := tail (ext w) |}) |}.




Definition flow_question_down : @RAGFlow string string (list string) :=
  RAGFlow_init (llm_down "model down") Toy.llm_script (Toy.fetch_const [])
               None (Some true) None (Some "Count_Person").

Definition flow_default : @RAGFlow string string (list string) :=
  RAGFlow_init (Toy.llm_const "pop?") Toy.llm_script (Toy.fetch_const [("pop?", 0%nat)])
               None None None None.

Definition flow_fetch_down : @RAGFlow string string (list string) :=
  RAGFlow_init (Toy.llm_const "pop?") Toy.llm_script (Toy.fetch_raise "backend down")
               None None None None.

Definition flow_slow : @RAGFlow string string (list string) :=
  RAGFlow_init (Toy.llm_const "pop?") Toy.llm_script (fetch_slow [("pop?", 0%nat)])
               None None None None.

Definition some_lines : string :=
  "a" +:+ Toy.nl +:+ " a " +:+ Toy.nl +:+ Toy.nl +:+ "b ".

End ToyMore.
(** * Properties *)

Section Strings.

Lemma lstrip_head s :
  PyStr.lstrip s = "" ∨ ∃ c r, PyStr.lstrip s = String c r ∧ PyStr.isspace c = false.
Proof.
  induction s as [|c s IH]; simpl; [by left|].
  destruct (PyStr.isspace c) eqn:Hc; [done|]. right. eauto.
Qed.

Lemma rstrip_head c s :
  PyStr.isspace c = false → ∃ r, PyStr.rstrip (String c s) = String c r.
Proof. intros Hc. simpl. rewrite Hc. destruct (PyStr.rstrip s); eauto. Qed.

Lemma strip_head s :
  PyStr.strip s = "" ∨ ∃ c r, PyStr.strip s = String c r ∧ PyStr.isspace c = false.
Proof.
  unfold PyStr.strip. destruct (lstrip_head s) as [->|(c & r & -> & Hc)]; [by left|].
  right. destruct (rstrip_head c r Hc) as [r' ->]. eauto.
Qed.

Lemma strip_truthy_not_blank s :
  PyStr.truthy (PyStr.strip s) = true →
  PyStr.strip s ≠ "" ∧ PyStr.all_space (PyStr.strip s) = false.
Proof.
  destruct (strip_head s) as [->|(c & r & -> & Hc)]; [done|].
  intros _. simpl. by rewrite Hc.
Qed.

Lemma lstrip_all_space s : PyStr.all_space s = true → PyStr.lstrip s = "".
Proof.
  induction s as [|c s IH]; simpl; [done|].
  intros [Hc Hs]%andb_prop. rewrite Hc. auto.
Qed.

Lemma strip_all_space s : PyStr.all_space s = true → PyStr.strip s = "".
Proof. intros H. unfold PyStr.strip. by rewrite lstrip_all_space. Qed.

Lemma split_nl_all_space s :
  PyStr.all_space s = true → Forall (fun p => PyStr.all_space p = true) (PyStr.split_nl s).
Proof.
  induction s as [|c s IH]; simpl; [by repeat constructor|].
  intros [Hc Hs]%andb_prop. specialize (IH Hs).
  destruct (Ascii.eqb c PyStr.newline); [by constructor|].
  destruct (PyStr.split_nl s) as [|p ps]; [repeat constructor; simpl; by rewrite Hc|].
  inversion IH; subst. constructor; [simpl; by rewrite Hc|done].
Qed.

Lemma truthy_false_iff s : PyStr.truthy s = false ↔ s = "".
Proof. by destruct s. Qed.

Lemma truthy_true_iff s : PyStr.truthy s = true ↔ s ≠ "".
Proof. by destruct s. Qed.

Lemma not_truthy_true s : negb (PyStr.truthy s) = true → s = "".
Proof. by destruct s. Qed.

Lemma not_truthy_false s : negb (PyStr.truthy s) = false → s ≠ "".
Proof. by destruct s. Qed.

End Strings.

Section Questions.
Context {Exn Time Payload Ext : Type} (env : @Env Exn Time Payload Ext).

Lemma elem_of_stripped_lines q text :
  q ∈ stripped_lines text →
  ∃ piece, piece ∈ PyStr.split_nl text ∧ q = PyStr.strip piece
           ∧ PyStr.truthy (PyStr.strip piece) = true.
Proof.
  unfold stripped_lines. rewrite list_elem_of_omap. intros (piece & Hin & Hq).
  exists piece. destruct (PyStr.truthy (PyStr.strip piece)) eqn:Ht; [|done].
  by injection Hq as <-.
Qed.

Lemma stripped_lines_blank text :
  PyStr.all_space text = true → stripped_lines text = [].
Proof.
  intros H%split_nl_all_space. unfold stripped_lines.
  induction H as [|p ps Hp _ IH]; [done|].
  simpl. by rewrite (strip_all_space p Hp).
Qed.

Lemma list_of_set_nil : set_semantics env → list_of_set env [] = [].
Proof.
  intros Hset. destruct (Hset []) as [_ Hin].
  destruct (list_of_set env []) as [|x xs]; [done|].
  exfalso. by apply (not_elem_of_nil x), Hin, list_elem_of_here.
Qed.

Lemma extract_questions_blank text :
  set_semantics env → PyStr.all_space text = true → extract_questions env text = [].
Proof.
  intros Hset H. unfold extract_questions.
  by rewrite stripped_lines_blank, list_of_set_nil.
Qed.

(** C3: whatever text the question LLM answered, the questions handed to
    the fetcher are pairwise distinct, none is empty or made of white
    space only, and there are at most 25 of them. *)
Theorem questions_distinct_nonblank_bounded (text : string) :
  set_semantics env →
  NoDup (extract_questions env text)
  ∧ (∀ q, q ∈ extract_questions env text → q ≠ "" ∧ PyStr.all_space q = false)
  ∧ (length (extract_questions env text) ≤ 25)%nat.
Proof.
  intros Hset. destruct (Hset (stripped_lines text)) as [Hnd Hin].
  unfold extract_questions. split_and!.
  - eapply sublist_NoDup; [done|apply sublist_take].
  - intros q Hq. apply (subseteq_take _MAX_QUESTIONS), Hin in Hq.
    apply elem_of_stripped_lines in Hq as (piece & _ & -> & Ht).
    by apply strip_truthy_not_blank.
  - rewrite length_take. unfold _MAX_QUESTIONS. lia.
Qed.

End Questions.

Lemma filter_ext_elem_of {A} (P1 P2 : A → Prop)
    `{!∀ x, Decision (P1 x), !∀ x, Decision (P2 x)} (l : list A) :
  (∀ x, x ∈ l → P1 x ↔ P2 x) → filter P1 l = filter P2 l.
Proof.
  induction l as [|a l IH]; intros Hiff; [done|].
  rewrite !filter_cons. rewrite IH by (intros x Hx; apply Hiff; by right).
  pose proof (Hiff a (list_elem_of_here _ _)). repeat case_decide; naive_solver.
Qed.

Lemma forallb_false_elem_of {A} (f : A → bool) (l : list A) :
  forallb f l = false → ∃ x, x ∈ l ∧ f x = false.
Proof.
  induction l as [|a l IH]; simpl; [done|].
  destruct (f a) eqn:Ha; simpl.
  - intros (x & ? & ?)%IH. exists x. split; [by right|done].
  - intros _. exists a. split; [by left|done].
Qed.

Section Assembly.
Context {Exn Time Payload Ext : Type} (env : @Env Exn Time Payload Ext).
Implicit Types (h : loc -> @DataCommonsCall Payload) (values : list loc) (l : loc).

Lemma assemble_snoc h values l :
  assemble env h (values ++ [l]) = assemble_step env (assemble env h values) l.
Proof. unfold assemble. by rewrite foldl_snoc. Qed.

Lemma assemble_dc_calls h values : asm_dc_calls (assemble env h values) = values.
Proof.
  induction values as [|l values IH] using rev_ind; [done|].
  rewrite assemble_snoc. simpl. by rewrite IH.
Qed.

Lemma set_id_fields i (r : @DataCommonsCall Payload) :
  title (set_id i r) = title r ∧ table (set_id i r) = table r
  ∧ payload (set_id i r) = payload r ∧ id (set_id i r) = i.
Proof. done. Qed.

(** The loop writes identifiers only. *)
Lemma assemble_heap_fields h values l :
  title (asm_heap (assemble env h values) l) = title (h l)
  ∧ table (asm_heap (assemble env h values) l) = table (h l)
  ∧ payload (asm_heap (assemble env h values) l) = payload (h l).
Proof.
  induction values as [|l0 values IH] using rev_ind; [done|].
  rewrite assemble_snoc. simpl. destruct (decide (l0 = l)) as [->|Hne].
  - rewrite fn_lookup_insert. simpl. done.
  - by rewrite fn_lookup_insert_ne.
Qed.

Lemma assemble_heap_fresh h values l :
  l ∉ values → asm_heap (assemble env h values) l = h l.
Proof.
  induction values as [|l0 values IH] using rev_ind; [done|].
  rewrite elem_of_app, list_elem_of_singleton. intros Hl.
  rewrite assemble_snoc. simpl. rewrite fn_lookup_insert_ne by naive_solver.
  apply IH. naive_solver.
Qed.

Lemma assemble_titles h values t :
  t ∈ table_titles (assemble env h values)
  ↔ ∃ l, l ∈ values ∧ has_table h l = true ∧ title (h l) = t.
Proof.
  induction values as [|l0 values IH] using rev_ind.
  - simpl. split; [set_solver|]. intros (l & Hl & _). by apply not_elem_of_nil in Hl.
  - rewrite assemble_snoc. simpl. unfold new_table.
    destruct (assemble_heap_fields h values l0) as (Ht & Hb & _).
    rewrite Ht, Hb. setoid_rewrite elem_of_app. setoid_rewrite list_elem_of_singleton.
    destruct (PyStr.truthy (table (h l0))) eqn:Htab; simpl.
    + case_bool_decide as Hseen; simpl.
      * rewrite IH. split; [naive_solver|]. intros (l & [Hl| ->] & Hl2 & <-); [eauto|].
        by apply IH.
      * rewrite elem_of_union, elem_of_singleton, IH. unfold has_table. naive_solver.
    + rewrite IH. unfold has_table. split; [naive_solver|].
      intros (l & [Hl| ->] & Hl2 & <-); [eauto|congruence].
Qed.

Lemma first_with_title_app h values l i :
  (i < length values)%nat →
  first_with_title h (values ++ [l]) i = first_with_title h values i.
Proof.
  intros Hi. unfold first_with_title.
  rewrite lookup_app_l by done. rewrite take_app_le by lia. done.
Qed.

Lemma new_table_first h values l :
  new_table (assemble env h values) (asm_heap (assemble env h values) l)
  = first_with_title h (values ++ [l]) (length values).
Proof.
  unfold new_table, first_with_title.
  destruct (assemble_heap_fields h values l) as (Ht & Hb & _). rewrite Ht, Hb.
  rewrite list_lookup_middle by done. rewrite take_app_length.
  unfold has_table at 1. destruct (PyStr.truthy (table (h l))); simpl; [|done].
  apply eq_true_iff_eq. rewrite negb_true_iff, bool_decide_eq_false, assemble_titles.
  rewrite forallb_forall. setoid_rewrite <- list_elem_of_In.
  setoid_rewrite negb_true_iff. setoid_rewrite andb_false_iff.
  unfold same_title. split.
  - intros Hno l' Hl'. destruct (has_table h l') eqn:Hl'2; [right|by left].
    apply bool_decide_eq_false. intros Heq. apply Hno. eauto.
  - intros Hall (l' & Hl' & Htab & Heq). destruct (Hall l' Hl') as [?|Hd]; [congruence|].
    by apply bool_decide_eq_false in Hd.
Qed.

Lemma table_positions_snoc h values l :
  table_positions h (values ++ [l])
  = table_positions h values
    ++ (if first_with_title h (values ++ [l]) (length values)
        then [length values] else []).
Proof.
  unfold table_positions. rewrite length_app. simpl.
  rewrite seq_app, filter_app. simpl. f_equal.
  - apply filter_ext_elem_of. intros i Hi%elem_of_seq.
    by rewrite first_with_title_app by lia.
  - rewrite filter_cons, filter_nil.
    destruct (first_with_title h (values ++ [l]) (length values));
      by case_decide.
Qed.

Lemma line_at_app h values l i :
  (i < length values)%nat → line_at env h (values ++ [l]) i = line_at env h values i.
Proof.
  intros Hi. unfold line_at. rewrite lookup_app_l by done.
  by rewrite take_app_le by lia.
Qed.

Lemma table_positions_lt h values i :
  i ∈ table_positions h values → (i < length values)%nat.
Proof. unfold table_positions. rewrite list_elem_of_filter, elem_of_seq. lia. Qed.

Lemma assemble_table_parts h values :
  table_parts (assemble env h values) = line_at env h values <$> table_positions h values.
Proof.
  induction values as [|l values IH] using rev_ind; [done|].
  rewrite assemble_snoc, table_positions_snoc, fmap_app. simpl.
  rewrite new_table_first, assemble_dc_calls, IH.
  replace (line_at env h (values ++ [l]) <$> table_positions h values)
    with (line_at env h values <$> table_positions h values).
  2:{ apply list_fmap_ext. intros k i Hk. symmetry. apply line_at_app.
      eapply table_positions_lt, list_elem_of_lookup_2, Hk. }
  destruct (first_with_title h (values ++ [l]) (length values)); simpl.
  - do 2 f_equal. unfold line_at. rewrite list_lookup_middle by done.
    by rewrite take_app_length.
  - by rewrite app_nil_r.
Qed.

Lemma elem_of_table_positions h values i :
  i ∈ table_positions h values ↔ first_with_title h values i = true.
Proof.
  unfold table_positions. rewrite list_elem_of_filter, elem_of_seq.
  split; [naive_solver|]. intros Hf. split; [done|].
  unfold first_with_title in Hf. destruct (values !! i) eqn:Hi; [|done].
  apply lookup_lt_Some in Hi. lia.
Qed.

Lemma first_with_title_false h values j lj :
  values !! j = Some lj → has_table h lj = true →
  first_with_title h values j = false →
  ∃ i li, (i < j)%nat ∧ values !! i = Some li
          ∧ has_table h li = true ∧ title (h li) = title (h lj).
Proof.
  intros Hj Htab. unfold first_with_title. rewrite Hj, Htab. simpl.
  intros (li & Hin & Hli)%forallb_false_elem_of.
  apply elem_of_take in Hin as (i & Hi & Hlt).
  apply negb_false_iff, andb_prop in Hli as [? Hs].
  apply bool_decide_eq_true in Hs. eauto 10.
Qed.

Lemma first_table_exists h values j lj :
  values !! j = Some lj → has_table h lj = true →
  ∃ i li, (i ≤ j)%nat ∧ values !! i = Some li ∧ has_table h li = true
          ∧ title (h li) = title (h lj) ∧ i ∈ table_positions h values.
Proof.
  revert lj. induction j as [j IH] using lt_wf_ind. intros lj Hj Htab.
  destruct (first_with_title h values j) eqn:Hf.
  - exists j, lj. by rewrite elem_of_table_positions.
  - destruct (first_with_title_false _ _ _ _ Hj Htab Hf) as (i & li & Hlt & Hi & Hti & Heq).
    destruct (IH i Hlt li Hi Hti) as (i' & li' & ? & ? & ? & Heq' & ?).
    exists i', li'. split_and!; [lia|done..| congruence |done].
Qed.

(** C5: the table lines are exactly the lines of the positions that are
    first to carry a table under their title, in iteration order; of two
    responses carrying a table under one title the later one contributes
    no line, and the first response carrying a table under a title does. *)
Theorem table_lines_first_title_wins h values :
  table_parts (assemble env h values)
  = line_at env h values <$> table_positions h values
  ∧ (∀ i j li lj, (i < j)%nat →
       values !! i = Some li → values !! j = Some lj →
       has_table h li = true → has_table h lj = true →
       title (h li) = title (h lj) →
       j ∉ table_positions h values)
  ∧ (∀ j lj, values !! j = Some lj → has_table h lj = true →
       ∃ i li, (i ≤ j)%nat ∧ values !! i = Some li ∧ has_table h li = true
               ∧ title (h li) = title (h lj) ∧ i ∈ table_positions h values).
Proof.
  split_and!.
  - apply assemble_table_parts.
  - intros i j li lj Hlt Hi Hj Hti Htj Heq. rewrite elem_of_table_positions.
    unfold first_with_title. rewrite Hj, Htj. simpl.
    apply not_true_iff_false. apply not_true_iff_false. intros Hall.
    rewrite forallb_forall in Hall. specialize (Hall li).
    rewrite <- list_elem_of_In, elem_of_take in Hall.
    unfold same_title in Hall. rewrite Hti, bool_decide_eq_true_2 in Hall by done.
    discriminate Hall. eauto.
  - apply first_table_exists.
Qed.

Lemma NoDup_not_in_take values i l :
  NoDup values → values !! i = Some l → l ∉ take i values.
Proof.
  intros Hnd Hi (j & Hj & Hlt)%elem_of_take.
  pose proof (NoDup_lookup _ _ _ _ Hnd Hi Hj). lia.
Qed.

Lemma assemble_ids h values :
  NoDup values → ids_are_positions env h values.
Proof.
  unfold ids_are_positions.
  induction values as [|l0 values IH] using rev_ind; [done|].
  intros [Hnd [Hdisj _]]%NoDup_app i l Hi. rewrite assemble_snoc. simpl.
  apply lookup_snoc_Some in Hi as [[Hlt Hi]|[-> ->]].
  - rewrite fn_lookup_insert_ne; [by apply IH|].
    intros ->. apply (Hdisj l); [by eapply list_elem_of_lookup_2|by left].
  - rewrite fn_lookup_insert. simpl. by rewrite assemble_dc_calls.
Qed.

(** C6, for mappings whose values are distinct objects: the
    retrieval-results sequence is the values in iteration order, every
    response ends with its 1-based position as identifier whether or not
    it produced a line, and every line carries the identifier of the
    response it was rendered from. *)
Theorem assemble_ids_distinct_objects h values :
  NoDup values →
  asm_dc_calls (assemble env h values) = values
  ∧ ids_are_positions env h values
  ∧ lines_numbered_by_id env h values.
Proof.
  intros Hnd. split_and!.
  - apply assemble_dc_calls.
  - by apply assemble_ids.
  - intros k i Hk.
    assert (i ∈ table_positions h values) as Hi by by eapply list_elem_of_lookup_2.
    apply table_positions_lt, lookup_lt_is_Some_2 in Hi as [l Hl].
    exists l. split; [done|].
    rewrite assemble_table_parts, list_lookup_fmap, Hk. simpl.
    unfold line_at. rewrite Hl.
    rewrite (assemble_heap_fresh h (take i values) l) by by apply NoDup_not_in_take.
    by rewrite (assemble_ids h values Hnd i l Hl).
Qed.

Lemma table_parts_are_lines h values s :
  s ∈ table_parts (assemble env h values) → ∃ k r, s = table_line env k r.
Proof.
  induction values as [|l values IH] using rev_ind.
  - intros Hs. by apply not_elem_of_nil in Hs.
  - rewrite assemble_snoc. simpl.
    destruct (new_table _ _); [|done].
    rewrite elem_of_app, list_elem_of_singleton. intros [Hs| ->]; eauto.
Qed.

Lemma tables_text_truthy h values :
  table_parts (assemble env h values) ≠ [] →
  PyStr.truthy (PyStr.join_nl (table_parts (assemble env h values))) = true.
Proof.
  pose proof (table_parts_are_lines h values) as Hlines.
  destruct (table_parts (assemble env h values)) as [|s rest]; [done|].
  intros _. destruct (Hlines s) as (k & r & ->); [by left|].
  destruct rest; reflexivity.
Qed.

End Assembly.

(** Tactics: unfold the flow, then split on every collaborator outcome
    and every test, in program order. *)
Ltac unfold_flow :=
  unfold query, fetch, validate, assemble_tables, ask_question, ask_answer,
    now, vlog, try_except, call, emit, mbind, M_bind, mret, M_ret, bind, ret.

Ltac run_step :=
  match goal with
  | |- context [llm_query ?llm ?pr ?wd] =>
      destruct (llm_query llm pr wd) as [[?c|?x] ?w] eqn:?
  | |- context [calln ?d ?qs ?wd] =>
      destruct (calln d qs wd) as [[?m|?x] ?w] eqn:?
  | |- context [run_validation ?e ?mp ?llm ?o ?cs ?wd] =>
      destruct (run_validation e mp llm o cs wd) as [[[?m ?calls]|?x] ?w] eqn:?
  | |- context [time_time ?e ?wd] =>
      destruct (time_time e wd) as [?t ?w] eqn:?
  | |- context [if ?b then _ else _] => destruct b eqn:?
  end; simpl in *.

Ltac run_all := unfold_flow; unfold result, final, events; simpl; repeat run_step.

Section Flow.
Context {Exn Time Payload Ext : Type} (env : @Env Exn Time Payload Ext).
Implicit Types (self : @RAGFlow Exn Payload Ext) (w : @World Payload Ext).

(** C2: when the question LLM answers with empty text, [query] returns at
    once: the response holds the one recorded call and nothing else, and
    neither the fetcher nor the answer LLM is called. *)
Theorem empty_question_response_exit self (q : string) w (c : LLMCall) w1 :
  llm_query (llm_question self) (question_prompt env self q).2 w = (Ok c, w1) →
  response c = "" →
  query env self q w
  = (Ok (calls_only [c]), w1,
     [EvVlog (question_prompt env self q).1;
      EvQuestionLLM (question_prompt env self q).2 (Ok c)]).
Proof.
  intros Hq Hc. unfold_flow. simpl. rewrite Hq. simpl. rewrite Hc. simpl. done.
Qed.

(** C10: without validation a returned response holds one, two or three
    call records, the first being the question call; one record exactly
    when the question response was empty, three exactly when the first
    answer contained the marker. *)
Theorem call_list_shape_without_validation self (q : string) w fr :
  validate_dc_responses self = false →
  result (query env self q w) = Ok fr →
  ∃ c,
    question_calls (events (query env self q w))
    = [((question_prompt env self q).2, Ok c)]
    ∧ head (llm_calls fr) = Some c
    ∧ (length (llm_calls fr) = 1 ∨ length (llm_calls fr) = 2
       ∨ length (llm_calls fr) = 3)%nat
    ∧ (length (llm_calls fr) = 1%nat ↔ response c = "")
    ∧ (length (llm_calls fr) = 3%nat
       ↔ ∃ p a rest,
           answer_calls (events (query env self q w)) = (p, Ok a) :: rest
           ∧ PyStr.contains "[NO ANSWER]" (response a) = true).
Proof.
  intros Hv. unfold_flow. rewrite Hv. unfold result, events. simpl.
  repeat run_step.
  all: try discriminate.
  all: intros [= <-]; simpl.
  all: repeat match goal with
         | H : negb (PyStr.truthy _) = true |- _ => apply not_truthy_true in H
         | H : negb (PyStr.truthy _) = false |- _ => apply not_truthy_false in H
         end.
  all: eexists; split_and!; [reflexivity|reflexivity|auto|..].
  all: split; intros Hx.
  all: first
    [ done | congruence | by eauto 10
    | destruct Hx as (? & ? & ? & [= <- <- <-] & ?); congruence
    | destruct Hx as (? & ? & ? & Hx & ?); discriminate Hx ].
Qed.

(** C8: when the answer that counts (the retry's when there was one) is
    empty, [query] returns the accumulated call list and the retrieval
    duration and nothing else. *)
Theorem empty_final_answer_exit self (q : string) w (p : string) (a : LLMCall) :
  last (answer_calls (events (query env self q w))) = Some (p, Ok a) →
  response a = "" →
  ∃ d, result (query env self q w)
       = Ok (calls_and_duration (accumulated_calls (events (query env self q w))) d).
Proof.
  run_all.
  all: try discriminate.
  all: intros [= <- <-] Hr; try (rewrite Hr in *; simpl in *; try discriminate).
  all: eexists; unfold calls_and_duration, accumulated_calls; simpl.
  all: by rewrite <- ?app_assoc.
Qed.

(** C7: when the first answer contains the marker, the answer LLM is
    asked exactly once more, with the query as the caller gave it. If
    that call raises, so does [query]; otherwise both answers are in the
    call list and the second alone decides the response: empty, the
    calls and the duration; not empty, it is the main text. *)
Theorem no_answer_retries_once self (q : string) w (p1 : string) (a1 : LLMCall) rest :
  answer_calls (events (query env self q w)) = (p1, Ok a1) :: rest →
  PyStr.contains "[NO ANSWER]" (response a1) = true →
  ∃ r2, rest = [(q, r2)]
    ∧ match r2 with
      | Raise x => result (query env self q w) = Raise x
      | Ok a2 =>
          ∃ fr, result (query env self q w) = Ok fr
            ∧ llm_calls fr
              = calls_before_answer (events (query env self q w)) ++ [a1; a2]
            ∧ main_text fr
              = (if PyStr.truthy (response a2) then Some (response a2) else None)
            ∧ (response a2 = "" →
               ∃ d, fr = calls_and_duration (llm_calls fr) d)
      end.
Proof.
  run_all.
  all: try discriminate.
  all: intros [= <- <- <-] Hc; try congruence.
  all: eexists; split; [reflexivity|]; simpl; try done.
  all: eexists; split_and!; [reflexivity|simpl..].
  all: unfold calls_before_answer; simpl; rewrite <- ?app_assoc; try done.
  all: try (intros Hr; rewrite Hr in *; first [discriminate | by eexists]).
  all: match goal with
       | |- context [if PyStr.truthy ?s then _ else _] => by destruct (PyStr.truthy s)
       end.
Qed.

(** C9: a question response that is not empty but blank (white space and
    newlines only) does not end the flow: the fetcher is called, once,
    with no question, and a returned response carries a duration. *)
Theorem blank_question_response_fetches_nothing self (q : string) w (c : LLMCall) w1 :
  set_semantics env →
  llm_query (llm_question self) (question_prompt env self q).2 w = (Ok c, w1) →
  response c ≠ "" →
  PyStr.all_space (response c) = true →
  (∃ r, fetch_calls (events (query env self q w)) = [([], r)])
  ∧ ∀ fr, result (query env self q w) = Ok fr → is_Some (dc_duration_secs fr).
Proof.
  intros Hset Hq Hne Hblank. unfold_flow. unfold result, events. simpl.
  rewrite Hq. simpl. apply truthy_true_iff in Hne. rewrite Hne. simpl.
  rewrite (extract_questions_blank env _ Hset Hblank).
  repeat run_step.
  all: split; [by eexists|].
  all: intros fr [= <-]; by eexists.
Qed.

Lemma question_prompt_with_fetcher self d (q : string) :
  question_prompt env (with_fetcher self d) q = question_prompt env self q.
Proof. done. Qed.

(** C4, as the code has it: a flow cannot tell a fetcher that raises an
    instance of [Exception] from one that finds nothing. Run with the
    fetcher [d] or with [recovering (is_Exception env) d], [query] ends
    in the same result and the same state, and does the same things but
    for the warning. An exception that leaves [query] was raised in the
    last thing [query] did: by a language model, by the validator, or by
    the fetcher, and then it is no instance of [Exception]; such an
    exception of the fetcher does leave [query]. *)
Theorem fetcher_exception_as_empty_mapping self (q : string) w :
  result (query env self q w)
  = result (query env
              (with_fetcher self (recovering (is_Exception env) (data_fetcher self))) q w)
  ∧ final (query env self q w)
    = final (query env
               (with_fetcher self (recovering (is_Exception env) (data_fetcher self))) q w)
  ∧ events (query env self q w) ≫= hide_fetch_failure (is_Exception env)
    = events (query env
                (with_fetcher self (recovering (is_Exception env) (data_fetcher self)))
                q w)
      ≫= hide_fetch_failure (is_Exception env)
  ∧ (∀ qs e, (qs, Raise e) ∈ fetch_calls
       (events (query env
                  (with_fetcher self (recovering (is_Exception env) (data_fetcher self)))
                  q w)) →
       is_Exception env e = false)
  ∧ (∀ x, result (query env self q w) = Raise x →
       ∃ ev, last (events (query env self q w)) = Some ev
             ∧ (raised_outside_fetcher ev = Some x
                ∨ raised_by_fetcher ev = Some x ∧ is_Exception env x = false))
  ∧ (∀ qs e, (qs, Raise e) ∈ fetch_calls (events (query env self q w)) →
       if is_Exception env e
       then EvWarning e ∈ events (query env self q w)
       else result (query env self q w) = Raise e).
Proof.
  unfold_flow. unfold result, final, events. simpl.
  rewrite question_prompt_with_fetcher.
  repeat run_step.
  all: split_and!; try done.
  all: try (intros ? Hraise;
            first [discriminate Hraise
                  | injection Hraise as <-; eexists; split; [reflexivity|];
                    first [by left | by right]]).
  all: intros qs e Hin; try by apply not_elem_of_nil in Hin.
  all: apply list_elem_of_singleton in Hin; try discriminate Hin.
  all: injection Hin as -> ->; try done.
  all: match goal with H : is_Exception _ _ = _ |- _ => rewrite H end.
  all: first [done | set_solver].
Qed.

(** C1, as the code has it: a response has retrieval results exactly when
    it has a main text, that is on the final return, and then they are
    all the responses of the mapping in iteration order, whether or not
    any of them produced a table line. *)
Theorem final_return_includes_all_results self (q : string) w fr :
  result (query env self q w) = Ok fr →
  (is_Some (main_text fr) ↔ is_Some (dc_calls fr))
  ∧ (is_Some (main_text fr) →
     dc_calls fr = Some ((used_mapping (events (query env self q w))).*2)).
Proof.
  run_all.
  all: try discriminate.
  all: intros [= <-]; simpl; split.
  all: try (split; intros _; by eexists).
  all: try (intros _; by rewrite assemble_dc_calls).
  all: try (split; by intros [? [=]]).
  all: by intros [? [=]].
Qed.

End Flow.

(** * The properties at work on the small instance *)

Example split_nl_lines :
  PyStr.split_nl ("a" +:+ Toy.nl +:+ Toy.nl +:+ "b ") = ["a"; ""; "b "]
  ∧ PyStr.split_nl "" = [""].
Proof. by split. Qed.

Example strip_both_ends : PyStr.strip "  a b  " = "a b" ∧ PyStr.strip "   " = "".
Proof. by split. Qed.

Example contains_marker :
  PyStr.contains "[NO ANSWER]" "Sorry: [NO ANSWER]." = true
  ∧ PyStr.contains "[NO ANSWER]" "NO ANSWER" = false.
Proof. by split. Qed.

Lemma toy_set_semantics : set_semantics Toy.env.
Proof.
  intros xs. split; [apply NoDup_remove_dups|].
  intros x. apply elem_of_remove_dups.
Qed.

(** The first end-to-end scenario of the specification. *)
Example france_scenario :
  ∃ fr, result Toy.run_france = Ok fr
    ∧ main_text fr = Some "France has a population of about 67 million."
    ∧ tables_str fr = Some "Table 1: 67 million"
    ∧ dc_calls fr = Some [0%nat]
    ∧ id (heap (final Toy.run_france) 0%nat) = 1.
Proof. eexists. split; [reflexivity|]. by vm_compute. Qed.

Lemma empty_question_response_exit_witness :
  query Toy.env (Toy.flow "" (Toy.fetch_const [])) "How big?" (Toy.start [])
  = (Ok (calls_only [{| prompt := "tuned: How big?"; response := "" |}]),
     Toy.start [],
     [EvVlog "... [RAG] Calling FINETUNED model for DC questions";
      EvQuestionLLM "tuned: How big?"
        (Ok {| prompt := "tuned: How big?"; response := "" |})]).
Proof.
  apply (empty_question_response_exit Toy.env (Toy.flow "" (Toy.fetch_const []))
           "How big?" (Toy.start [])
           {| prompt := "tuned: How big?"; response := "" |} (Toy.start []));
    reflexivity.
Defined.

Lemma questions_distinct_nonblank_bounded_witness :
  set_semantics Toy.env
  ∧ NoDup (extract_questions Toy.env ("a" +:+ Toy.nl +:+ " a " +:+ Toy.nl +:+ Toy.nl +:+ "b "))
  ∧ (∀ q, q ∈ extract_questions Toy.env
                ("a" +:+ Toy.nl +:+ " a " +:+ Toy.nl +:+ Toy.nl +:+ "b ") →
          q ≠ "" ∧ PyStr.all_space q = false)
  ∧ (length (extract_questions Toy.env
               ("a" +:+ Toy.nl +:+ " a " +:+ Toy.nl +:+ Toy.nl +:+ "b ")) ≤ 25)%nat.
Proof.
  split; [exact toy_set_semantics|].
  exact (questions_distinct_nonblank_bounded Toy.env _ toy_set_semantics).
Defined.

Example extract_questions_toy :
  extract_questions Toy.env ("a" +:+ Toy.nl +:+ " a " +:+ Toy.nl +:+ Toy.nl +:+ "b ")
  = ["a"; "b"].
Proof. reflexivity. Qed.

(** C1 as stated fails: a fetcher that finds one response without a
    table leaves no table line, and the final response still carries the
    retrieval results. *)
Lemma results_returned_without_tables :
  table_parts (assemble Toy.env Toy.heap0 [1%nat]) = []
  ∧ ∃ fr, result Toy.run_no_table = Ok fr
      ∧ dc_calls fr = Some [1%nat]
      ∧ ¬ results_only_with_tables fr.
Proof.
  split; [reflexivity|]. eexists. split; [reflexivity|]. split; [reflexivity|].
  intros Hclaim. discriminate Hclaim; [by eexists|reflexivity].
Qed.

Lemma final_return_includes_all_results_witness :
  ∃ fr, result Toy.run_no_table = Ok fr
    ∧ (is_Some (main_text fr) ↔ is_Some (dc_calls fr))
    ∧ (is_Some (main_text fr) →
       dc_calls fr = Some ((used_mapping (events Toy.run_no_table)).*2)).
Proof.
  eexists. split; [reflexivity|].
  apply (final_return_includes_all_results Toy.env _ "How big?" (Toy.start ["Big."])).
  reflexivity.
Defined.

(** C6 as stated fails when one response object is reached under two
    questions: it ends with identifier 2, not 1, and the line "Table 1"
    was rendered from it. *)
Lemma shared_response_keeps_last_position :
  ¬ (asm_dc_calls (assemble Toy.env Toy.heap0 [0%nat; 0%nat]) = [0%nat; 0%nat]
     ∧ ids_are_positions Toy.env Toy.heap0 [0%nat; 0%nat]
     ∧ lines_numbered_by_id Toy.env Toy.heap0 [0%nat; 0%nat]).
Proof.
  intros (_ & Hids & _). specialize (Hids 0%nat 0%nat eq_refl).
  vm_compute in Hids. discriminate Hids.
Qed.

Example shared_response_state :
  table_parts (assemble Toy.env Toy.heap0 [0%nat; 0%nat]) = ["Table 1: 67 million"]
  ∧ id (asm_heap (assemble Toy.env Toy.heap0 [0%nat; 0%nat]) 0%nat) = 2.
Proof. by vm_compute. Qed.

Lemma assemble_ids_distinct_objects_witness :
  NoDup [0%nat; 1%nat]
  ∧ asm_dc_calls (assemble Toy.env Toy.heap0 [0%nat; 1%nat]) = [0%nat; 1%nat]
  ∧ ids_are_positions Toy.env Toy.heap0 [0%nat; 1%nat]
  ∧ lines_numbered_by_id Toy.env Toy.heap0 [0%nat; 1%nat].
Proof.
  assert (NoDup [0%nat; 1%nat]) as Hnd by (apply (bool_decide_unpack _); reflexivity).
  split; [exact Hnd|].
  exact (assemble_ids_distinct_objects Toy.env Toy.heap0 [0%nat; 1%nat] Hnd).
Defined.

Lemma no_answer_retries_once_witness :
  ∃ p1 a1 rest,
    answer_calls (events Toy.run_retry) = (p1, Ok a1) :: rest
    ∧ PyStr.contains "[NO ANSWER]" (response a1) = true
    ∧ rest = [("Population?", Ok {| prompt := "Population?"; response := "About 67 million." |})]
    ∧ ∃ fr, result Toy.run_retry = Ok fr
        ∧ main_text fr = Some "About 67 million."
        ∧ length (llm_calls fr) = 3%nat.
Proof.
  eexists _, _, _. split; [reflexivity|]. split; [reflexivity|].
  destruct (no_answer_retries_once Toy.env
              (Toy.flow "pop?" (Toy.fetch_const [("pop?", 0%nat)])) "Population?"
              (Toy.start ["[NO ANSWER]"; "About 67 million."]) _ _ _ eq_refl eq_refl)
    as (r2 & Hrest & Hr2).
  split; [reflexivity|]. eexists. split; [reflexivity|]. split; reflexivity.
Defined.

Lemma empty_final_answer_exit_witness :
  ∃ d, result Toy.run_silent
       = Ok (calls_and_duration (accumulated_calls (events Toy.run_silent)) d).
Proof.
  apply (empty_final_answer_exit Toy.env
           (Toy.flow "pop?" (Toy.fetch_const [("pop?", 0%nat)])) "Population?"
           (Toy.start [""]) "tables: Table 1: 67 million q: Population?"
           {| prompt := "tables: Table 1: 67 million q: Population?"; response := "" |});
    reflexivity.
Defined.

Lemma blank_question_response_fetches_nothing_witness :
  (∃ r, fetch_calls (events Toy.run_blank) = [([], r)])
  ∧ ∀ fr, result Toy.run_blank = Ok fr → is_Some (dc_duration_secs fr).
Proof.
  apply (blank_question_response_fetches_nothing Toy.env
           (Toy.flow ("  " +:+ Toy.nl +:+ " ") (Toy.fetch_raise "backend down"))
           "Population?" (Toy.start ["No idea."])
           {| prompt := "tuned: Population?"; response := "  " +:+ Toy.nl +:+ " " |}
           (Toy.start ["No idea."]) toy_set_semantics);
    [reflexivity|discriminate|reflexivity].
Defined.

Lemma call_list_shape_without_validation_witness :
  ∃ fr, result Toy.run_retry = Ok fr
    ∧ length (llm_calls fr) = 3%nat
    ∧ ∃ c, head (llm_calls fr) = Some c
        ∧ question_calls (events Toy.run_retry) = [("tuned: Population?", Ok c)].
Proof.
  eexists. split; [reflexivity|].
  destruct (call_list_shape_without_validation Toy.env
              (Toy.flow "pop?" (Toy.fetch_const [("pop?", 0%nat)])) "Population?"
              (Toy.start ["[NO ANSWER]"; "About 67 million."]) _ eq_refl eq_refl)
    as (c & Hq & Hhead & Hlen & H1 & H3).
  split; [reflexivity|]. exists c. split; [exact Hhead|exact Hq].
Defined.

(** C4 as stated fails for an exception that is no instance of
    [Exception]: a [KeyboardInterrupt] raised by the lookup leaves
    [query] before any answer is asked for, while with an empty mapping
    the flow goes on to its answer. *)
Lemma interrupt_in_fetcher_escapes :
  fetch_calls (events Toy.run_interrupted) = [(["pop?"], Raise "KeyboardInterrupt")]
  ∧ result Toy.run_interrupted = Raise "KeyboardInterrupt"
  ∧ answer_calls (events Toy.run_interrupted) = []
  ∧ ∃ fr, result Toy.run_nothing_found = Ok fr ∧ main_text fr = Some "No idea.".
Proof. split_and!; [reflexivity..|]. eexists. by split. Qed.

(** The fetcher that raises an [Exception], seen from outside. *)
Example fetcher_raises_toy :
  result Toy.run_blank
  = Ok {| main_text := Some "No idea."; tables_str := Some "";
          llm_calls := [{| prompt := "tuned: Population?";
                           response := "  " +:+ Toy.nl +:+ " " |};
                        {| prompt := "Population?"; response := "No idea." |}];
          dc_duration_secs := Some 0; dc_calls := Some [] |}
  ∧ fetch_calls (events Toy.run_blank) = [([], Raise "backend down")].
Proof. by vm_compute. Qed.

(** * Further properties of the flow *)

Section FlowMore.
Context {Exn Time Payload Ext : Type} (env : @Env Exn Time Payload Ext).
Implicit Types (self : @RAGFlow Exn Payload Ext) (w : @World Payload Ext).

(** X1: every run asks the question LLM exactly once, and the prompt is
    chosen by the mode: the fine-tuned template outside in-context mode,
    the in-context template with variables when a metrics list is set,
    the plain in-context template otherwise. *)
Theorem question_asked_once_by_mode self (q : string) w :
  ∃ p r,
    question_calls (events (query env self q w)) = [(p, r)]
    ∧ (in_context self = false → p = RAG_FINE_TUNED_PROMPT env q)
    ∧ (in_context self = true → metrics_list self = "" →
       p = RAG_IN_CONTEXT_PROMPT env q)
    ∧ (in_context self = true → metrics_list self ≠ "" →
       p = RAG_IN_CONTEXT_PROMPT_WITH_VARS env (metrics_list self) q).
Proof.
  assert (∃ r, question_calls (events (query env self q w))
               = [((question_prompt env self q).2, r)]) as [r Hr].
  { run_all; by eexists. }
  exists (question_prompt env self q).2, r. split; [done|].
  unfold question_prompt. split_and!.
  - by intros ->.
  - by intros -> ->.
  - intros -> Hm%truthy_true_iff. by rewrite Hm.
Qed.

(** X3: an exception of the question LLM leaves [query] as it is: the
    run ends there, in the state the model left, and no other
    collaborator is called. *)
Theorem question_llm_exception_propagates self (q : string) w (x : Exn) w1 :
  llm_query (llm_question self) (question_prompt env self q).2 w = (Raise x, w1) →
  query env self q w
  = (Raise x, w1,
     [EvVlog (question_prompt env self q).1;
      EvQuestionLLM (question_prompt env self q).2 (Raise x)]).
Proof. intros Hq. unfold_flow. simpl. by rewrite Hq. Qed.


(** X8: the call list of a returned response is the record of the run:
    the list the validator left (the question call alone when it did not
    run), then the answers of the answer LLM in the order they came. *)
Theorem call_list_is_the_record self (q : string) w fr :
  result (query env self q w) = Ok fr →
  llm_calls fr = accumulated_calls (events (query env self q w)).
Proof.
  run_all.
  all: try discriminate.
  all: intros [= <-]; unfold accumulated_calls, calls_before_answer; simpl.
  all: by rewrite <- ?app_assoc.
Qed.

(** X6: when the first answer does not contain the marker there is no
    second call: that answer is the last record of the call list and is
    the main text, or, when it is empty, the response has no main text. *)
Theorem answer_without_marker_is_final self (q : string) w (p1 : string) (a1 : LLMCall) rest :
  answer_calls (events (query env self q w)) = (p1, Ok a1) :: rest →
  PyStr.contains "[NO ANSWER]" (response a1) = false →
  rest = []
  ∧ ∃ fr, result (query env self q w) = Ok fr
      ∧ last (llm_calls fr) = Some a1
      ∧ main_text fr
        = (if PyStr.truthy (response a1) then Some (response a1) else None).
Proof.
  run_all.
  all: try discriminate.
  all: intros [= <- <- <-] Hc; try congruence.
  all: split; [done|]; eexists; split_and!; [reflexivity|simpl..].
  all: try by rewrite last_snoc.
  all: match goal with
       | H : PyStr.truthy ?s = _, H' : negb (PyStr.truthy ?s) = _ |- _ =>
           rewrite H in H'; first [discriminate H' | done]
       end.
Qed.

(** X5: the first prompt of the answer LLM goes with the table text of
    the response: with tables it is the final-answer template filled with
    the query and that text, without tables it is the query itself. *)
Theorem answer_prompt_matches_tables self (q : string) w fr (t : string) :
  result (query env self q w) = Ok fr →
  tables_str fr = Some t →
  ∃ p r rest,
    answer_calls (events (query env self q w)) = (p, r) :: rest
    ∧ (t = "" → p = q)
    ∧ (t ≠ "" → p = RAG_FINAL_ANSWER_PROMPT env q t).
Proof.
  run_all.
  all: try discriminate.
  all: intros [= <-]; simpl; try discriminate.
  all: intros [= <-]; eexists _, _, _; split; [reflexivity|].
  all: try (split; [done|by intros []]).
  all: match goal with
       | H : bool_decide _ = true |- _ =>
           apply bool_decide_eq_true, tables_text_truthy, truthy_true_iff in H
       end.
  all: by split.
Qed.


(** X16: the duration of a returned response is the difference of the
    two clock readings taken just before and just after the fetcher's
    lookup, whatever the lookup did. *)
Theorem duration_spans_the_fetch
    self (q : string) w (c : LLMCall) w0 (t0 : Time) w1 r w2 (t1 : Time) w3 fr :
  llm_query (llm_question self) (question_prompt env self q).2 w = (Ok c, w0) →
  response c ≠ "" →
  time_time env w0 = (t0, w1) →
  calln (data_fetcher self) (extract_questions env (response c)) w1 = (r, w2) →
  time_time env w2 = (t1, w3) →
  result (query env self q w) = Ok fr →
  dc_duration_secs fr = Some (time_sub env t1 t0).
Proof.
  intros Hq Hne%truthy_true_iff Ht0 Hfetch Ht1.
  unfold_flow. unfold result. simpl. rewrite Hq. simpl. rewrite Hne. simpl.
  rewrite Ht0. simpl. rewrite Hfetch. simpl.
  destruct r as [m|e]; simpl;
    [|destruct (is_Exception env e); simpl; [|discriminate]]; rewrite Ht1; simpl.
  all: repeat run_step.
  all: try discriminate.
  all: by intros [= <-].
Qed.

(** X2: outside in-context mode the metrics list plays no part: the run
    is the same whatever the list is. *)
Theorem metrics_list_ignored_outside_in_context self (metrics q : string) w :
  in_context self = false →
  query env (with_metrics_list self metrics) q w = query env self q w.
Proof.
  intros Hmode. unfold query, question_prompt, ask_question, ask_answer, fetch,
    validate, vlog. simpl. by rewrite Hmode.
Qed.

(** X18: a flow built with the defaults of the constructor asks the
    question LLM with the fine-tuned template and never runs the
    validator. *)
Theorem default_flow_fine_tuned_unvalidated
    (lq la : @LLM Exn Payload Ext) (df : @DataCommons Exn Payload Ext) (q : string) w :
  (∃ r, question_calls
          (events (query env (RAGFlow_init lq la df None None None None) q w))
        = [(RAG_FINE_TUNED_PROMPT env q, r)])
  ∧ validate_calls
      (events (query env (RAGFlow_init lq la df None None None None) q w)) = [].
Proof.
  run_all.
  all: split; [by eexists|done].
Qed.

(** X15: when the fetcher raises an instance of [Exception] and
    validation is off, the exception is logged as a warning, the answer
    LLM is asked the query itself, and a final response has empty table
    text and an empty retrieval-results sequence. *)
Theorem fetch_failure_answers_ungrounded self (q : string) w qs (e : Exn) :
  validate_dc_responses self = false →
  is_Exception env e = true →
  fetch_calls (events (query env self q w)) = [(qs, Raise e)] →
  EvWarning e ∈ events (query env self q w)
  ∧ (∃ r rest, answer_calls (events (query env self q w)) = (q, r) :: rest)
  ∧ (∀ fr, result (query env self q w) = Ok fr → is_Some (main_text fr) →
       tables_str fr = Some "" ∧ dc_calls fr = Some []).
Proof.
  intros Hv Hclass. revert Hclass. unfold_flow. rewrite Hv. unfold result, events.
  simpl. repeat run_step.
  all: intros Hclass; try discriminate.
  all: intros [= <- <-]; try congruence.
  all: split_and!; [set_solver|by eexists _, _|].
  all: intros fr [= <-]; simpl; try by intros [? [=]].
  all: done.
Qed.

End FlowMore.

(** * Further properties of the table assembly *)


Section AssemblyMore.
Context {Exn Time Payload Ext : Type} (env : @Env Exn Time Payload Ext).
Implicit Types (h : loc -> @DataCommonsCall Payload) (values : list loc) (l : loc).

(** X9: the loop writes identifiers and nothing else: every response
    keeps its title, table and payload, and a response that is not a
    value of the mapping is left as it was. *)
Theorem assembly_writes_identifiers_only h values l :
  title (asm_heap (assemble env h values) l) = title (h l)
  ∧ table (asm_heap (assemble env h values) l) = table (h l)
  ∧ payload (asm_heap (assemble env h values) l) = payload (h l)
  ∧ (l ∉ values → asm_heap (assemble env h values) l = h l).
Proof.
  destruct (assemble_heap_fields env h values l) as (Ht & Hb & Hp).
  split_and!; [done..|]. apply assemble_heap_fresh.
Qed.

(** X10: whether or not responses are shared, a response ends with the
    1-based position of its last occurrence among the values. *)
Theorem shared_response_gets_last_position h values l (i : nat) :
  last_position values l i →
  id (asm_heap (assemble env h values) l) = Z.of_nat i + 1.
Proof.
  unfold last_position. revert i.
  induction values as [|l0 values IH] using rev_ind; intros i [Hi Hlast]; [done|].
  rewrite assemble_snoc. simpl.
  apply lookup_snoc_Some in Hi as [[Hlt Hi]|[-> ->]].
  - assert (l0 ≠ l) as Hne.
    { intros ->. apply (Hlast (length values)); [done|]. by apply list_lookup_middle. }
    rewrite fn_lookup_insert_ne by done. apply IH. split; [done|].
    intros j Hj Hl. destruct (decide (j < length values)%nat) as [Hjl|Hjl].
    + apply (Hlast j Hj). by rewrite lookup_app_l.
    + apply lookup_lt_Some in Hl. lia.
  - rewrite fn_lookup_insert. simpl. by rewrite assemble_dc_calls.
Qed.

Lemma assemble_count h values :
  length (table_parts (assemble env h values)) = size (table_titles (assemble env h values)).
Proof.
  induction values as [|l values IH] using rev_ind.
  - done.
  - rewrite assemble_snoc. simpl. unfold new_table.
    destruct (PyStr.truthy _); simpl; [|done].
    case_bool_decide as Hseen; simpl; [done|].
    rewrite length_app, size_union, size_singleton by set_solver. simpl. lia.
Qed.

(** X11: there are as many table lines as there are distinct titles among
    the responses that carry a table, and the titles the loop has seen
    are exactly those titles. *)
Theorem one_line_per_title h values :
  length (table_parts (assemble env h values))
  = size (table_titles (assemble env h values))
  ∧ ∀ t, t ∈ table_titles (assemble env h values)
         ↔ ∃ l, l ∈ values ∧ has_table h l = true ∧ title (h l) = t.
Proof. split; [apply assemble_count|]. intros t. apply assemble_titles. Qed.



End AssemblyMore.

(** * Further properties of the string handling *)

Section StringsMore.

Lemma rstrip_idemp s : PyStr.rstrip (PyStr.rstrip s) = PyStr.rstrip s.
Proof.
  induction s as [|c s IH]; [done|]. simpl.
  destruct (PyStr.rstrip s) as [|d r] eqn:Hr.
  - destruct (PyStr.isspace c) eqn:Hc; [done|]. simpl. by rewrite Hc.
  - change (PyStr.rstrip (String c (String d r))) with
      (match PyStr.rstrip (String d r) with
       | EmptyString => if PyStr.isspace c then EmptyString else String c EmptyString
       | r0 => String c r0
       end).
    by rewrite IH.
Qed.

Lemma strip_idemp s : PyStr.strip (PyStr.strip s) = PyStr.strip s.
Proof.
  unfold PyStr.strip. destruct (lstrip_head s) as [->|(c & r & -> & Hc)]; [done|].
  destruct (rstrip_head c r Hc) as [r' Hr']. rewrite Hr'. simpl PyStr.lstrip.
  rewrite Hc, <- Hr'. apply rstrip_idemp.
Qed.

Lemma has_char_lstrip c s : has_char c (PyStr.lstrip s) = true → has_char c s = true.
Proof.
  induction s as [|d s IH]; [done|]. simpl.
  destruct (PyStr.isspace d); [|done]. intros H%IH. by rewrite H, orb_true_r.
Qed.

Lemma has_char_rstrip c s : has_char c (PyStr.rstrip s) = true → has_char c s = true.
Proof.
  induction s as [|d s IH]; [done|]. simpl.
  destruct (PyStr.rstrip s) as [|e r].
  - destruct (PyStr.isspace d); [done|]. simpl. rewrite orb_false_r. by intros ->.
  - change (has_char c (String d (String e r)))
      with (Ascii.eqb d c || has_char c (String e r)).
    intros [->|H%IH]%orb_prop; [done|]. by rewrite H, orb_true_r.
Qed.

Lemma has_char_strip c s : has_char c (PyStr.strip s) = true → has_char c s = true.
Proof. intros H. by apply has_char_lstrip, has_char_rstrip. Qed.

Lemma split_nl_no_newline s :
  Forall (fun piece => has_char PyStr.newline piece = false) (PyStr.split_nl s).
Proof.
  induction s as [|c s IH]; simpl; [by repeat constructor|].
  destruct (Ascii.eqb c PyStr.newline) eqn:Hc; [by constructor|].
  destruct (PyStr.split_nl s) as [|p ps]; [repeat constructor; simpl; by rewrite Hc|].
  inversion IH as [|? ? Hp Hps]; subst. constructor; [|done]. simpl. by rewrite Hc, Hp.
Qed.

Lemma prefix_spec sub s :
  String.prefix sub s = true ↔ ∃ post, s = sub +:+ post.
Proof.
  revert s. induction sub as [|a sub IH]; intros s.
  - destruct s; simpl; (split; [intros _; by eexists|done]).
  - destruct s as [|b s]; simpl; [split; [done|by intros [? [=]]]|].
    destruct (Ascii.ascii_dec a b) as [->|Hne].
    + rewrite IH. split; intros [post Hpost]; exists post; [by rewrite Hpost|].
      by injection Hpost.
    + split; [done|]. intros [post [= ? _]]. congruence.
Qed.

(** X17: the test for the marker is substring containment: [sub in s]
    holds exactly when [s] is some text, then [sub], then some text. *)
Theorem contains_is_substring (sub s : string) :
  PyStr.contains sub s = true ↔ ∃ pre post, s = pre +:+ sub +:+ post.
Proof.
  induction s as [|c s IH].
  - change (PyStr.contains sub "") with (String.prefix sub "" || false).
    rewrite orb_false_r, prefix_spec. split.
    + intros [post Hpost]. by exists "", post.
    + intros (pre & post & Hs). destruct pre; [by exists post|done].
  - change (PyStr.contains sub (String c s))
      with (String.prefix sub (String c s) || PyStr.contains sub s).
    rewrite orb_true_iff, prefix_spec, IH. split.
    + intros [[post Hpost]|(pre & post & ->)].
      * by exists "", post.
      * by exists (String c pre), post.
    + intros (pre & post & Hs). destruct pre as [|d pre]; simpl in Hs.
      * left. by exists post.
      * right. injection Hs as -> ->. by exists pre, post.
Qed.

End StringsMore.

Section QuestionsMore.
Context {Exn Time Payload Ext : Type} (env : @Env Exn Time Payload Ext).

(** X13: every question handed to the fetcher is a line of the response
    with the white space at both ends removed: stripping it again changes
    nothing, and it contains no newline. *)
Theorem questions_are_trimmed_lines (text q : string) :
  set_semantics env →
  q ∈ extract_questions env text →
  (∃ line, line ∈ PyStr.split_nl text ∧ q = PyStr.strip line)
  ∧ PyStr.strip q = q
  ∧ has_char PyStr.newline q = false.
Proof.
  intros Hset Hq. destruct (Hset (stripped_lines text)) as [_ Hin].
  apply (subseteq_take _MAX_QUESTIONS), Hin, elem_of_stripped_lines in Hq
    as (line & Hline & -> & _).
  split_and!; [by exists line|apply strip_idemp|].
  apply not_true_is_false. intros Hnl%has_char_strip.
  pose proof (split_nl_no_newline text) as Hall. rewrite Forall_forall in Hall.
  specialize (Hall line Hline). congruence.
Qed.

Lemma list_of_set_length (xs : list string) :
  set_semantics env →
  length (list_of_set env xs) = size (list_to_set xs : gset string).
Proof.
  intros Hset. destruct (Hset xs) as [Hnd Hin].
  unfold size, set_size. simpl. apply Permutation_length, NoDup_Permutation.
  - done.
  - apply NoDup_elements.
  - intros x. by rewrite Hin, elem_of_elements, elem_of_list_to_set.
Qed.

(** X14: the number of questions is the number of distinct trimmed
    non-blank lines, cut at 25; when there are at most 25 of them, every
    one of them is handed to the fetcher. *)
Theorem questions_count_and_coverage (text : string) :
  set_semantics env →
  length (extract_questions env text)
  = (25 `min` size (list_to_set (stripped_lines text) : gset string))%nat
  ∧ ((size (list_to_set (stripped_lines text) : gset string) ≤ 25)%nat →
     ∀ line, line ∈ PyStr.split_nl text → PyStr.strip line ≠ "" →
             PyStr.strip line ∈ extract_questions env text).
Proof.
  intros Hset. unfold extract_questions.
  rewrite length_take, (list_of_set_length _ Hset). split; [done|].
  intros Hle line Hline Hne. rewrite take_ge
    by (rewrite (list_of_set_length _ Hset); unfold _MAX_QUESTIONS; lia).
  destruct (Hset (stripped_lines text)) as [_ Hin]. apply Hin.
  unfold stripped_lines. rewrite list_elem_of_omap. exists line. split; [done|].
  apply truthy_true_iff in Hne. by rewrite Hne.
Qed.

End QuestionsMore.

(** * The further properties at work on the small instance *)

Lemma question_llm_exception_propagates_witness :
  query Toy.env ToyMore.flow_question_down "Population?" (Toy.start ["unused"])
  = (Raise "model down", Toy.start ["unused"],
     [EvVlog "... [RAG] Calling UNTUNED model for DC questions with all DC vars in prompt";
      EvQuestionLLM "vars: Count_Person q: Population?" (Raise "model down")]).
Proof.
  apply (question_llm_exception_propagates Toy.env ToyMore.flow_question_down
           "Population?" (Toy.start ["unused"]) "model down" (Toy.start ["unused"])).
  reflexivity.
Defined.

Lemma call_list_is_the_record_witness :
  ∃ fr, result Toy.run_retry = Ok fr
    ∧ llm_calls fr = accumulated_calls (events Toy.run_retry)
    ∧ length (llm_calls fr) = 3%nat.
Proof.
  eexists. split; [reflexivity|]. split; [|reflexivity].
  apply (call_list_is_the_record Toy.env
           (Toy.flow "pop?" (Toy.fetch_const [("pop?", 0%nat)])) "Population?"
           (Toy.start ["[NO ANSWER]"; "About 67 million."])).
  reflexivity.
Defined.

Lemma answer_without_marker_is_final_witness :
  ∃ p1 a1 rest,
    answer_calls (events Toy.run_france) = (p1, Ok a1) :: rest
    ∧ PyStr.contains "[NO ANSWER]" (response a1) = false
    ∧ rest = []
    ∧ ∃ fr, result Toy.run_france = Ok fr
        ∧ last (llm_calls fr) = Some a1
        ∧ main_text fr
          = (if PyStr.truthy (response a1) then Some (response a1) else None).
Proof.
  eexists _, _, _. split; [reflexivity|]. split; [reflexivity|].
  exact (answer_without_marker_is_final Toy.env
           (Toy.flow ("What is the population of France?" +:+ Toy.nl)
              (Toy.fetch_const [("What is the population of France?", 0%nat)]))
           "What is the population of France?"
           (Toy.start ["France has a population of about 67 million."]) _ _ _
           eq_refl eq_refl).
Defined.

Lemma answer_prompt_matches_tables_witness :
  ∃ fr t, result Toy.run_france = Ok fr
    ∧ tables_str fr = Some t
    ∧ t = "Table 1: 67 million"
    ∧ ∃ p r rest,
        answer_calls (events Toy.run_france) = (p, r) :: rest
        ∧ (t = "" → p = "What is the population of France?")
        ∧ (t ≠ "" →
           p = RAG_FINAL_ANSWER_PROMPT Toy.env "What is the population of France?" t).
Proof.
  eexists _, _. split; [reflexivity|]. split; [reflexivity|]. split; [reflexivity|].
  apply (answer_prompt_matches_tables Toy.env
           (Toy.flow ("What is the population of France?" +:+ Toy.nl)
              (Toy.fetch_const [("What is the population of France?", 0%nat)]))
           "What is the population of France?"
           (Toy.start ["France has a population of about 67 million."]) _ _
           eq_refl eq_refl).
Defined.


Lemma duration_spans_the_fetch_witness :
  ∃ fr, result (query ToyMore.env_clock ToyMore.flow_slow "Population?"
                  (Toy.start ["lookup"; "About 67 million."])) = Ok fr
    ∧ dc_duration_secs fr = Some (time_sub ToyMore.env_clock (-1) (-2))
    ∧ main_text fr = Some "About 67 million.".
Proof.
  eexists. split; [reflexivity|]. split; [|reflexivity].
  apply (duration_spans_the_fetch ToyMore.env_clock ToyMore.flow_slow "Population?"
           (Toy.start ["lookup"; "About 67 million."])
           {| prompt := "tuned: Population?"; response := "pop?" |}
           (Toy.start ["lookup"; "About 67 million."]) (-2)
           (Toy.start ["lookup"; "About 67 million."])
           (Ok [("pop?", 0%nat)])
           (Toy.start ["About 67 million."]) (-1)
           (Toy.start ["About 67 million."]));
    first [reflexivity | discriminate].
Defined.

Lemma metrics_list_ignored_outside_in_context_witness :
  query Toy.env (with_metrics_list ToyMore.flow_default "Count_Person") "Population?"
        (Toy.start ["About 67 million."])
  = query Toy.env ToyMore.flow_default "Population?" (Toy.start ["About 67 million."]).
Proof.
  apply (metrics_list_ignored_outside_in_context Toy.env ToyMore.flow_default
           "Count_Person" "Population?" (Toy.start ["About 67 million."])).
  reflexivity.
Defined.

Lemma fetch_failure_answers_ungrounded_witness :
  fetch_calls (events (query Toy.env ToyMore.flow_fetch_down "Population?"
                         (Toy.start ["No idea."])))
  = [(["pop?"], Raise "backend down")]
  ∧ EvWarning "backend down"
    ∈ events (query Toy.env ToyMore.flow_fetch_down "Population?" (Toy.start ["No idea."]))
  ∧ ∃ r rest,
      answer_calls (events (query Toy.env ToyMore.flow_fetch_down "Population?"
                              (Toy.start ["No idea."])))
      = ("Population?", r) :: rest.
Proof.
  split; [reflexivity|].
  destruct (fetch_failure_answers_ungrounded Toy.env ToyMore.flow_fetch_down
              "Population?" (Toy.start ["No idea."]) ["pop?"] "backend down"
              eq_refl eq_refl eq_refl) as (Hwarn & Hans & _).
  split; [exact Hwarn|exact Hans].
Defined.

Lemma shared_response_gets_last_position_witness :
  last_position [0%nat; 1%nat; 0%nat] 0%nat 2
  ∧ id (asm_heap (assemble Toy.env Toy.heap0 [0%nat; 1%nat; 0%nat]) 0%nat) = 3.
Proof.
  assert (last_position [0%nat; 1%nat; 0%nat] 0%nat 2) as Hlast.
  { split; [reflexivity|]. intros j Hj Hl. apply lookup_lt_Some in Hl. simpl in Hl. lia. }
  split; [exact Hlast|].
  exact (shared_response_gets_last_position Toy.env Toy.heap0 _ _ _ Hlast).
Defined.


Lemma questions_are_trimmed_lines_witness :
  set_semantics Toy.env
  ∧ "b" ∈ extract_questions Toy.env ToyMore.some_lines
  ∧ (∃ line, line ∈ PyStr.split_nl ToyMore.some_lines ∧ "b" = PyStr.strip line)
  ∧ PyStr.strip "b" = "b"
  ∧ has_char PyStr.newline "b" = false.
Proof.
  assert ("b" ∈ extract_questions Toy.env ToyMore.some_lines) as Hin.
  { apply (bool_decide_unpack _). reflexivity. }
  split; [exact toy_set_semantics|]. split; [exact Hin|].
  exact (questions_are_trimmed_lines Toy.env ToyMore.some_lines "b"
           toy_set_semantics Hin).
Defined.

Lemma questions_count_and_coverage_witness :
  set_semantics Toy.env
  ∧ length (extract_questions Toy.env ToyMore.some_lines) = 2%nat
  ∧ length (extract_questions Toy.env ToyMore.some_lines)
    = (25 `min` size (list_to_set (stripped_lines ToyMore.some_lines) : gset string))%nat.
Proof.
  split; [exact toy_set_semantics|]. split; [reflexivity|].
  exact (proj1 (questions_count_and_coverage Toy.env ToyMore.some_lines
                  toy_set_semantics)).
Defined.
